(** * radix: the command batch (package redis) and the protocol connection
      (package radix), embedded shallowly and checked against their
      natural-language specification.

    Go values are modelled as the code has them: a pointer that may be nil
    is an [option], a slice is a list together with its nil-ness, a
    [(value, error)] result is a pair, and code that mutates an object
    behind a pointer passes the object's state explicitly. *)

From Stdlib Require Import List ZArith String Bool Lia.
Import ListNotations.
Open Scope string_scope.
Open Scope list_scope.
Open Scope Z_scope.

(* ================================================================== *)
(** * Go slices *)
(* ================================================================== *)

(** A Go slice value: [None] is the nil slice, [Some l] a non-nil slice
    holding the elements [l].  [len] is 0 for both nil and empty slices. *)
Definition slice (A : Type) : Type := option (list A).

Definition slice_list {A : Type} (s : slice A) : list A :=
  match s with
  | None => []
  | Some l => l
  end.

(** [len(s)], a Go [int]. *)
Definition len {A : Type} (s : slice A) : Z := Z.of_nat (List.length (slice_list s)).

(** [s[i]] with Go's bounds check: [None] stands for the run-time panic
    raised when [i] is outside [0 <= i < len(s)]. *)
Definition index {A : Type} (s : slice A) (i : Z) : option A :=
  if i <? 0 then None else nth_error (slice_list s) (Z.to_nat i).

(** [append(s, x)]: the result is never nil. *)
Definition append {A : Type} (s : slice A) (x : A) : slice A :=
  Some (slice_list s ++ [x]).

(** The outcome of running a Go function that may panic. *)
Inductive outcome (A : Type) : Type :=
| Returned (a : A)
| Panicked.
Arguments Returned {A} a.
Arguments Panicked {A}.

(* ================================================================== *)
(** * Package redis: MultiCommand *)
(* ================================================================== *)

Module Redis.

Definition cmdName := string.

(** [*Error] as built by [newError]. *)
Record RedisError : Type := newError { errMsg : string }.

Section MultiCommand.

(** The opaque argument values of a command ([interface{}]). *)
Variable iface : Type.
(** The fields of a [Reply] other than [Error] and [elems] (its type tag
    and scalar contents); [process] never reads or writes them. *)
Variable scalar : Type.
(** The state behind the [*connection] pointer. *)
Variable connection : Type.

(** [command{cmd, args}] *)
Record command : Type := mkCommand { name : cmdName; args : list iface }.

(** Modelled from the spec: the [Reply] struct is declared outside
    src/.  A reply is a scalar or error outcome or a sequence of nested
    replies; the fields are the two [process] uses, [Error] (nil unless
    the reply reports an error) and [elems] (nil unless the reply is a
    sequence), and [scalarPart] for the rest. *)
#[warnings="-register-all"]
Inductive Reply : Type :=
  mkReply { scalarPart : scalar;
            Error : option RedisError;
            elems : slice Reply }.

Definition set_elems (r : Reply) (e : slice Reply) : Reply :=
  mkReply (scalarPart r) (Error r) e.
Definition set_Error (r : Reply) (e : option RedisError) : Reply :=
  mkReply (scalarPart r) e (elems r).

(** Modelled from the spec: [Reply.At] is defined outside src/.  It
    extracts the nested reply at a position of the element sequence; a
    position outside the sequence is a run-time failure ([None]). *)
Definition At (r : Reply) (i : Z) : option Reply := index (elems r) i.

(** [connection.multiCommand] is defined outside src/: it sends the
    commands as one pipeline over the connection and returns the
    aggregate reply.  It is a parameter of the development. *)
Variable multiCommand : connection -> slice command -> Reply * connection.

(** [MultiCommand]; [c] holds the state of the connection the batch
    points to. *)
Record MultiCommand : Type :=
  mkMultiCommand { transaction : bool;
                   c : connection;
                   cmds : slice command }.

Definition set_cmds (mc : MultiCommand) (cs : slice command) : MultiCommand :=
  mkMultiCommand (transaction mc) (c mc) cs.
Definition set_c (mc : MultiCommand) (c' : connection) : MultiCommand :=
  mkMultiCommand (transaction mc) c' (cmds mc).

Definition newMultiCommand (transaction : bool) (c : connection) : MultiCommand :=
  mkMultiCommand transaction c None.

(** [mc.cmds = append(mc.cmds, command{cmd, args})] *)
Definition command_ (mc : MultiCommand) (cmd : cmdName) (args : list iface)
  : MultiCommand :=
  set_cmds mc (append (cmds mc) (mkCommand cmd args)).

Definition Command (mc : MultiCommand) (cmd : string) (args : list iface)
  : MultiCommand :=
  command_ mc cmd args.

(** Modelled from the spec: [Multi] and [Exec] are defined outside src/;
    they enqueue the begin-transaction and the commit-transaction marker
    command. *)
Definition Multi (mc : MultiCommand) : MultiCommand := command_ mc "MULTI" [].
Definition Exec (mc : MultiCommand) : MultiCommand := command_ mc "EXEC" [].

(** [Flush]: send the queue, then [mc.cmds = nil]. *)
Definition Flush (mc : MultiCommand) : Reply * MultiCommand :=
  let '(r, c') := multiCommand (c mc) (cmds mc) in
  (r, set_cmds (set_c mc c') None).

(** The unwrapping of the commit step's reply, lines 32-40 of the
    source, with its three arms as written. *)
Definition unwrap (r execReply : Reply) : Reply :=
  match Error execReply with
  | None => set_elems r (elems execReply)
  | Some _ =>
      match Error execReply with
      | Some e => set_Error r (Some e)
      | None => set_Error r (Some (newError "unknown transaction error"))
      end
  end.

(** [process]: the callback [userCommands] receives the batch and may
    change it.  The result is the final state of the batch and what the
    call produced. *)
Definition process (mc : MultiCommand)
           (userCommands : MultiCommand -> MultiCommand)
  : MultiCommand * outcome Reply :=
  let mc := if transaction mc then Multi mc else mc in
  let mc := userCommands mc in
  if negb (transaction mc) then
    let '(r, c') := multiCommand (c mc) (cmds mc) in
    (set_c mc c', Returned r)
  else
    let mc := Exec mc in
    let '(r, c') := multiCommand (c mc) (cmds mc) in
    let mc := set_c mc c' in
    match At r (len (elems r) - 1) with
    | None => (mc, Panicked)
    | Some execReply => (mc, Returned (unwrap r execReply))
    end.

End MultiCommand.

Arguments mkCommand {iface} name args.
Arguments name {iface} c.
Arguments args {iface} c.
Arguments mkReply {scalar} scalarPart Error elems.
Arguments scalarPart {scalar} r.
Arguments Error {scalar} r.
Arguments elems {scalar} r.
Arguments set_elems {scalar} r e.
Arguments set_Error {scalar} r e.
Arguments At {scalar} r i.
Arguments unwrap {scalar} r execReply.
Arguments mkMultiCommand {iface connection} transaction c cmds.
Arguments transaction {iface connection} m.
Arguments c {iface connection} m.
Arguments cmds {iface connection} m.
Arguments set_cmds {iface connection} mc cs.
Arguments set_c {iface connection} mc c'.
Arguments newMultiCommand {iface connection} transaction c.
Arguments command_ {iface connection} mc cmd args.
Arguments Command {iface connection} mc cmd args.
Arguments Multi {iface connection} mc.
Arguments Exec {iface connection} mc.
Arguments Flush {iface scalar connection} multiCommand mc.
Arguments process {iface scalar connection} multiCommand mc userCommands.

End Redis.

(* ================================================================== *)
(** * Package radix: the protocol connection *)
(* ================================================================== *)

Module Radix.

(** [time.Duration], a count of nanoseconds. *)
Definition Duration := Z.

(** A non-nil Go [error].  The package only ever asks of an error whether
    its dynamic type implements [net.Error]. *)
Inductive error : Type :=
| NetError (msg : string)
| OtherError (msg : string).

(** [_, ok := err.(net.Error)]: false for the nil error. *)
Definition isNetError (err : option error) : bool :=
  match err with
  | Some (NetError _) => true
  | _ => false
  end.

(** A [net.Conn] value: a raw stream obtained from outside the package
    (named by a handle), or a pointer to a [timeoutConn] of this package,
    whose fields are the wrapped stream and the timeout. *)
Inductive netConn : Type :=
| Stream (id : nat)
| TimeoutConnPtr (Conn : netConn) (timeout : Duration).

Record timeoutConn : Type :=
  mkTimeoutConn { tc_Conn : netConn; tc_timeout : Duration }.

(** [&timeoutConn{...}] used as a [net.Conn]. *)
Definition ref (tc : timeoutConn) : netConn :=
  TimeoutConnPtr (tc_Conn tc) (tc_timeout tc).

(** The raw stream beneath all deadline-enforcing wrappers. *)
Fixpoint rawId (c : netConn) : nat :=
  match c with
  | Stream id => id
  | TimeoutConnPtr inner _ => rawId inner
  end.

(** The [bufio] objects built by [NewConn], named by the stream they
    buffer; their contents are part of the environment. *)
Record bufReader : Type := NewReader { rd : netConn }.
Record bufWriter : Type := NewWriter { wr : netConn }.
Record ReadWriter : Type := NewReadWriter { Reader : bufReader; Writer : bufWriter }.

Record connWrap : Type := mkConnWrap { Conn : netConn; brw : ReadWriter }.

Section Conn.

(** [time.Time] *)
Variable time : Type.
(** Everything outside the package: the operating system's streams, the
    clock, the contents of the buffers, the values being decoded into. *)
Variable env : Type.

(** The operations the package calls on its surroundings; each takes
    the environment and returns its result and the next environment. *)
Class Env : Type := {
  Now : env -> time;                               (* time.Now() *)
  Add : time -> Duration -> time;                  (* Time.Add *)
  streamRead : nat -> nat -> env -> (list Byte.byte * option error) * env;
  streamWrite : nat -> list Byte.byte -> env -> (nat * option error) * env;
  streamClose : nat -> env -> option error * env;
  streamSetDeadline : nat -> time -> env -> option error * env;
  bufFlush : bufWriter -> env -> option error * env;   (* bufio.Writer.Flush *)
  netDial : string -> string -> env -> (netConn + error) * env;
  netDialTimeout : string -> string -> Duration -> env -> (netConn + error) * env
}.
Context {E : Env}.

(** A method call that reached a raw stream. *)
Inductive call : Type :=
| CallRead (id : nat) (n : nat)
| CallWrite (id : nat) (b : list Byte.byte)
| CallClose (id : nat)
| CallSetDeadline (id : nat) (t : time).

(** The state the package runs in: the environment, and the log of the
    calls that the methods of this package have made on raw streams,
    oldest first.  What a marshaller or unmarshaller does to a stream
    through the buffers happens inside its step on the environment and is
    not logged. *)
Record world : Type := mkWorld { ext : env; calls : list call }.

(** State passing. *)
Definition M (A : Type) : Type := world -> A * world.
Definition ret {A : Type} (a : A) : M A := fun w => (a, w).
Definition bind {A B : Type} (m : M A) (k : A -> M B) : M B :=
  fun w => let '(a, w') := m w in k a w'.
(** Run an operation of the surroundings that the package does not
    itself perform on a raw stream. *)
Definition lift {A : Type} (f : env -> A * env) : M A :=
  fun w => let '(a, e') := f (ext w) in (a, mkWorld e' (calls w)).
(** Run a raw stream operation and log it. *)
Definition logged {A : Type} (c : call) (f : env -> A * env) : M A :=
  fun w => let '(a, e') := f (ext w) in (a, mkWorld e' (calls w ++ [c])).


Notation "x <- m ;; k" := (bind m (fun x => k))
  (at level 61, m at next level, right associativity).

(** ** Method calls on a [net.Conn]

    [SetDeadline] and [Close] are not overridden by [timeoutConn]: the
    calls are promoted to the embedded stream. *)
Fixpoint conn_SetDeadline (c : netConn) (t : time) : M (option error) :=
  match c with
  | Stream id => logged (CallSetDeadline id t) (streamSetDeadline id t)
  | TimeoutConnPtr inner _ => conn_SetDeadline inner t
  end.

Fixpoint conn_Close (c : netConn) : M (option error) :=
  match c with
  | Stream id => logged (CallClose id) (streamClose id)
  | TimeoutConnPtr inner _ => conn_Close inner
  end.

(** [(tc *timeoutConn) setDeadline] *)
Definition setDeadline (tc : timeoutConn) : M unit :=
  fun w =>
    if tc_timeout tc >? 0
    then (_ <- conn_SetDeadline (tc_Conn tc) (Add (Now (ext w)) (tc_timeout tc)) ;;
          ret tt) w
    else ret tt w.

(** [Read] and [Write] on a [net.Conn]; on a [*timeoutConn] they are the
    methods [tc_Read] and [tc_Write] below. *)
Fixpoint conn_Read (c : netConn) (n : nat) : M (list Byte.byte * option error) :=
  match c with
  | Stream id => logged (CallRead id n) (streamRead id n)
  | TimeoutConnPtr inner timeout =>
      _ <- setDeadline (mkTimeoutConn inner timeout) ;;
      conn_Read inner n
  end.

Fixpoint conn_Write (c : netConn) (b : list Byte.byte) : M (nat * option error) :=
  match c with
  | Stream id => logged (CallWrite id b) (streamWrite id b)
  | TimeoutConnPtr inner timeout =>
      _ <- setDeadline (mkTimeoutConn inner timeout) ;;
      conn_Write inner b
  end.

(** [(tc *timeoutConn) Read], for a buffer of [n] bytes. *)
Definition tc_Read (tc : timeoutConn) (n : nat) : M (list Byte.byte * option error) :=
  _ <- setDeadline tc ;;
  conn_Read (tc_Conn tc) n.

(** [(tc *timeoutConn) Write] *)
Definition tc_Write (tc : timeoutConn) (b : list Byte.byte) : M (nat * option error) :=
  _ <- setDeadline tc ;;
  conn_Write (tc_Conn tc) b.

(** ** The capabilities handed to the connection *)

(** [resp.Marshaler]: [MarshalRESP] is given the connection's buffered
    writer and acts on the surroundings only through it. *)
Record Marshaler : Type :=
  { MarshalRESP : ReadWriter -> env -> option error * env }.

(** [resp.Unmarshaler]: [UnmarshalRESP] is given the buffered reader. *)
Record Unmarshaler : Type :=
  { UnmarshalRESP : bufReader -> env -> option error * env }.

(** [Action]: [Run] is given the connection and may call any of its
    methods. *)
Record Action : Type :=
  { Run : connWrap -> M (option error) }.

(** ** connWrap *)

Definition NewConn (conn : netConn) : connWrap :=
  {| Conn := conn;
     brw := NewReadWriter (NewReader conn) (NewWriter conn) |}.

(** [cw.Close()], promoted from the embedded [net.Conn]. *)
Definition Close (cw : connWrap) : M (option error) := conn_Close (Conn cw).

Definition Do (cw : connWrap) (a : Action) : M (option error) :=
  Run a cw.

(** The deferred function of [Encode]: it reads [err] as it stands when
    [Encode] returns, and discards the result of [Close]. *)
Definition closeOnNetError (cw : connWrap) (err : option error) : M unit :=
  if isNetError err then (_ <- Close cw ;; ret tt) else ret tt.

Definition Encode (cw : connWrap) (m : Marshaler) : M (option error) :=
  err <- lift (MarshalRESP m (brw cw)) ;;
  match err with
  | Some _ =>
      _ <- closeOnNetError cw err ;;
      ret err
  | None =>
      err <- lift (bufFlush (Writer (brw cw))) ;;
      _ <- closeOnNetError cw err ;;
      ret err
  end.

(** The two steps of [Encode] without its deferred function: the
    marshal step, and the flush step when marshalling succeeded; the
    error the steps end with and the environment they leave. *)
Definition encodeSteps (cw : connWrap) (m : Marshaler) (e : env)
  : option error * env :=
  match MarshalRESP m (brw cw) e with
  | (Some err, e1) => (Some err, e1)
  | (None, e1) => bufFlush (Writer (brw cw)) e1
  end.

Definition Decode (cw : connWrap) (u : Unmarshaler) : M (option error) :=
  err <- lift (UnmarshalRESP u (Reader (brw cw))) ;;
  _ <- (if isNetError err then (_ <- Close cw ;; ret tt) else ret tt) ;;
  ret err.

Definition NetConn (cw : connWrap) : netConn := Conn cw.

(** [Dial]: the [(Conn, error)] result is a pair of possibly-nil
    values. *)
Definition Dial (network addr : string) : M (option connWrap * option error) :=
  r <- lift (netDial network addr) ;;
  match r with
  | inr err => ret (None, Some err)
  | inl c => ret (Some (NewConn c), None)
  end.

Definition DialTimeout (network addr : string) (timeout : Duration)
  : M (option connWrap * option error) :=
  r <- lift (netDialTimeout network addr timeout) ;;
  match r with
  | inr err => ret (None, Some err)
  | inl c => ret (Some (NewConn (ref (mkTimeoutConn c timeout))), None)
  end.

End Conn.

Arguments Now {time env Env} e.
Arguments Add {time env Env} t d.
Arguments streamRead {time env Env} id n e.
Arguments streamWrite {time env Env} id b e.
Arguments streamClose {time env Env} id e.
Arguments streamSetDeadline {time env Env} id t e.
Arguments bufFlush {time env Env} b e.
Arguments netDial {time env Env} network addr e.
Arguments netDialTimeout {time env Env} network addr timeout e.
Arguments CallRead {time} id n.
Arguments CallWrite {time} id b.
Arguments CallClose {time} id.
Arguments CallSetDeadline {time} id t.
Arguments mkWorld {time env} ext calls.
Arguments ext {time env} w.
Arguments calls {time env} w.
Arguments ret {time env A} a w.
Arguments bind {time env A B} m k w.
Arguments lift {time env A} f w.
Arguments logged {time env A} c f w.
Arguments conn_SetDeadline {time env E} c t w.
Arguments conn_Close {time env E} c w.
Arguments setDeadline {time env E} tc w.
Arguments conn_Read {time env E} c n w.
Arguments conn_Write {time env E} c b w.
Arguments tc_Read {time env E} tc n w.
Arguments tc_Write {time env E} tc b w.
Arguments MarshalRESP {env} m rw e.
Arguments UnmarshalRESP {env} u r e.
Arguments Run {time env} a cw w.
Arguments Close {time env E} cw w.
Arguments Do {time env} cw a w.
Arguments closeOnNetError {time env E} cw err w.
Arguments Encode {time env E} cw m w.
Arguments encodeSteps {time env E} cw m e.
Arguments Decode {time env E} cw u w.
Arguments Dial {time env E} network addr w.
Arguments DialTimeout {time env E} network addr timeout w.

End Radix.

(* ================================================================== *)
(** * Test doubles *)
(* ================================================================== *)

(** A stub server for the command batch.  Command arguments and scalar
    reply contents are strings. *)
Module RedisStub.
Import Redis.

Definition reply : Type := Reply string.

Definition status (s : string) : reply := mkReply s None None.
Definition errorReply (s : string) : reply := mkReply "" (Some (newError s)) None.
Definition multi (l : list reply) : reply := mkReply "" None (Some l).
(** The null reply, as a server gives to the commit marker when it
    abandons the transaction: no error, no sequence, no contents. *)
Definition nilReply : reply := mkReply "" None None.

(** The stub connection: up, holding the reply the server will give to
    the commit marker, or down. *)
Inductive server : Type :=
| Up (commit : reply)
| Down.

Definition replyTo (commit : reply) (cmd : command string) : reply :=
  if String.eqb (name cmd) "EXEC" then commit
  else if String.eqb (name cmd) "MULTI" then status "OK"
  else status "QUEUED".

(** One reply per command when the server is up; a transport error and
    no replies when it is down. *)
Definition stubMultiCommand (srv : server) (cs : slice (command string))
  : reply * server :=
  match srv with
  | Up commit => (multi (map (replyTo commit) (slice_list cs)), srv)
  | Down => (mkReply "" (Some (newError "EOF")) None, srv)
  end.

Definition SET : command string := mkCommand "SET" ["k"; "v"].
Definition GET : command string := mkCommand "GET" ["k"].
Definition MULTI : command string := mkCommand "MULTI" [].
Definition EXEC : command string := mkCommand "EXEC" [].

(** The callback that queues [SET k v] and [GET k]. *)
Definition setThenGet (mc : MultiCommand string server) : MultiCommand string server :=
  Command (Command mc "SET" ["k"; "v"]) "GET" ["k"].
End RedisStub.

(** A stub environment for the connection: time is a count of
    nanoseconds, and the environment is the clock together with the
    handles of the streams that have been closed. *)
Module RadixStub.
Import Radix.

Record stubEnv : Type := mkStubEnv { clock : Z; closedStreams : list nat }.

Definition isClosed (id : nat) (e : stubEnv) : bool :=
  existsb (Nat.eqb id) (closedStreams e).

Definition errClosed : error := NetError "use of closed network connection".

#[export] Instance stub : Env Z stubEnv := {|
  Now := clock;
  Add := Z.add;
  streamRead := fun id n e =>
    if isClosed id e then (([], Some errClosed), e) else (([], None), e);
  streamWrite := fun id b e =>
    if isClosed id e then ((0%nat, Some errClosed), e)
    else ((List.length b, None), e);
  streamClose := fun id e =>
    if isClosed id e then (Some errClosed, e)
    else (None, mkStubEnv (clock e) (id :: closedStreams e));
  streamSetDeadline := fun id t e =>
    if isClosed id e then (Some errClosed, e) else (None, e);
  bufFlush := fun b e => (None, e);
  netDial := fun network addr e => (inl (Stream 7), e);
  netDialTimeout := fun network addr timeout e => (inl (Stream 7), e)
|}.

Definition w0 : world Z stubEnv := mkWorld (mkStubEnv 1000 []) [].

(** A marshaller whose write times out, one that rejects its value, and
    one that succeeds. *)
Definition timeoutMarshaler : Marshaler stubEnv :=
  {| MarshalRESP := fun _ e => (Some (NetError "i/o timeout"), e) |}.
Definition badValueMarshaler : Marshaler stubEnv :=
  {| MarshalRESP := fun _ e => (Some (OtherError "cannot marshal"), e) |}.
Definition okMarshaler : Marshaler stubEnv :=
  {| MarshalRESP := fun _ e => (None, e) |}.

Definition timeoutUnmarshaler : Unmarshaler stubEnv :=
  {| UnmarshalRESP := fun _ e => (Some (NetError "i/o timeout"), e) |}.
Definition badValueUnmarshaler : Unmarshaler stubEnv :=
  {| UnmarshalRESP := fun _ e => (Some (OtherError "unexpected type"), e) |}.

(** An action that does not use the connection. *)
Definition noopAction : Action Z stubEnv :=
  {| Run := fun _ w => (None, w) |}.

Definition cw0 : connWrap := NewConn (Stream 7).
End RadixStub.

(* ================================================================== *)
(** * Callbacks and wrappers used to state how the operations compose *)
(* ================================================================== *)

(** A run of [Command] calls, one per command of [cs], in order: what a
    callback does that only queues commands. *)
Definition queueAll {iface connection : Type} (cs : list (Redis.command iface))
           (mc : Redis.MultiCommand iface connection)
  : Redis.MultiCommand iface connection :=
  fold_left (fun m cmd => Redis.Command m (Redis.name cmd) (Redis.args cmd)) cs mc.

(** A callback that calls [Flush] first, drops its reply, and then queues
    the commands [cs]. *)
Definition flushThenQueue {iface scalar connection : Type}
           (multiCommand : connection -> slice (Redis.command iface)
                           -> Redis.Reply scalar * connection)
           (cs : list (Redis.command iface))
           (mc : Redis.MultiCommand iface connection)
  : Redis.MultiCommand iface connection :=
  queueAll cs (snd (Redis.Flush multiCommand mc)).

(** The slice a fresh queue holds after the commands [cs] were appended
    one by one: nil when there were none. *)
Definition queued {A : Type} (cs : list A) : slice A :=
  match cs with
  | [] => None
  | _ => Some cs
  end.

(* ================================================================== *)
(** * Properties of Go slices *)
(* ================================================================== *)

Lemma len_nonneg {A : Type} (s : slice A) : 0 <= len s.
Proof. unfold len. lia. Qed.

Lemma len_append {A : Type} (s : slice A) (x : A) : len (append s x) = len s + 1.
Proof.
  unfold len, append. simpl. rewrite length_app. simpl. lia.
Qed.

(** The last position of a slice is in bounds exactly when the slice has
    an element. *)
Lemma index_last_in_bounds {A : Type} (s : slice A) :
  index s (len s - 1) <> None <-> 1 <= len s.
Proof.
  unfold index, len.
  destruct (slice_list s) as [|x l] eqn:Hs; simpl List.length.
  - simpl. split; [congruence | lia].
  - split; [lia | intros _].
    destruct (Z.ltb_spec (Z.of_nat (S (List.length l)) - 1) 0) as [Hlt|Hge]; [lia|].
    apply nth_error_Some. simpl List.length. lia.
Qed.

(** What sits at the last position is the last element. *)
Lemma index_last_elem {A : Type} (s : slice A) (x : A) :
  index s (len s - 1) = Some x -> exists front, slice_list s = front ++ [x].
Proof.
  unfold index, len.
  destruct (slice_list s) as [|y l] using rev_ind.
  - simpl. discriminate.
  - clear IHl. rewrite length_app. simpl List.length.
    destruct (Z.ltb_spec (Z.of_nat (List.length l + 1) - 1) 0) as [Hlt|Hge]; [lia|].
    replace (Z.to_nat (Z.of_nat (List.length l + 1) - 1)) with (List.length l) by lia.
    rewrite nth_error_app2 by lia. rewrite Nat.sub_diag. simpl.
    intros H. injection H as <-. now exists l.
Qed.

Lemma index_empty {A : Type} (s : slice A) :
  len s = 0 -> len s - 1 = -1 /\ index s (len s - 1) = None.
Proof.
  intros H. rewrite H. split; reflexivity.
Qed.

(* ================================================================== *)
(** * The command batch *)
(* ================================================================== *)

Section RedisSpec.

Import Redis.

Variables iface scalar connection : Type.
Variable multiCommand :
  connection -> slice (command iface) -> Reply scalar * connection.

Implicit Types (mc : MultiCommand iface connection) (r : Reply scalar).

(** ** The three arms of the unwrapping *)

Lemma unwrap_no_error r execReply :
  Error execReply = None ->
  unwrap r execReply = set_elems r (elems execReply).
Proof. intros H. unfold unwrap. now rewrite H. Qed.

Lemma unwrap_error r execReply e :
  Error execReply = Some e ->
  unwrap r execReply = set_Error r (Some e).
Proof. intros H. unfold unwrap. now rewrite H. Qed.

(** The third arm is never taken: the top-level error after unwrapping
    is the aggregate's own or the commit reply's. *)
Lemma unwrap_Error_cases r execReply :
  Error (unwrap r execReply) = Error r \/
  (Error execReply <> None /\ Error (unwrap r execReply) = Error execReply).
Proof.
  unfold unwrap. destruct (Error execReply) as [e|] eqn:He.
  - right. split; [congruence | reflexivity].
  - left. reflexivity.
Qed.

(** ** Queueing *)

Lemma cmds_Exec mc :
  cmds (Exec mc) = Some (slice_list (cmds mc) ++ [mkCommand "EXEC" []]).
Proof. reflexivity. Qed.

Lemma cmds_Multi mc :
  cmds (Multi mc) = Some (slice_list (cmds mc) ++ [mkCommand "MULTI" []]).
Proof. reflexivity. Qed.

(** ** [process] in its two modes *)

Lemma process_plain mc userCommands :
  let mc' := userCommands (if transaction mc then Multi mc else mc) in
  transaction mc' = false ->
  process multiCommand mc userCommands =
    (set_c mc' (snd (multiCommand (c mc') (cmds mc'))),
     Returned (fst (multiCommand (c mc') (cmds mc')))).
Proof.
  intros mc' H. unfold process. fold mc'. rewrite H. simpl.
  destruct (multiCommand (c mc') (cmds mc')). reflexivity.
Qed.

Lemma process_transactional mc userCommands :
  let mc' := Exec (userCommands (if transaction mc then Multi mc else mc)) in
  transaction mc' = true ->
  let r := fst (multiCommand (c mc') (cmds mc')) in
  process multiCommand mc userCommands =
    (set_c mc' (snd (multiCommand (c mc') (cmds mc'))),
     match At r (len (elems r) - 1) with
     | None => Panicked
     | Some execReply => Returned (unwrap r execReply)
     end).
Proof.
  intros mc' H r. unfold process.
  change (transaction mc') with
    (transaction (userCommands (if transaction mc then Multi mc else mc))) in H.
  rewrite H. simpl negb. cbv iota. fold mc'. subst r.
  destruct (multiCommand (c mc') (cmds mc')) as [r c']. simpl fst. simpl snd.
  destruct (At r (len (elems r) - 1)); reflexivity.
Qed.

(** A transactional batch whose callback leaves the mode alone: the
    queue sent is the callback's followed by the commit marker. *)
Lemma process_transaction mc userCommands :
  transaction mc = true ->
  transaction (userCommands (Multi mc)) = true ->
  let mc' := Exec (userCommands (Multi mc)) in
  let r := fst (multiCommand (c mc') (cmds mc')) in
  process multiCommand mc userCommands =
    (set_c mc' (snd (multiCommand (c mc') (cmds mc'))),
     match At r (len (elems r) - 1) with
     | None => Panicked
     | Some execReply => Returned (unwrap r execReply)
     end).
Proof.
  intros Htx Hkeep mc' r.
  pose proof (process_transactional mc userCommands) as H.
  rewrite Htx in H. apply H. exact Hkeep.
Qed.

(** C1, on the code as written: when the commit step's reply is neither
    an error nor a sequence, [process] reports no transaction error; it
    returns the aggregate's own top-level error slot untouched and a nil
    element sequence. *)
Theorem process_malformed_commit_reply mc userCommands execReply :
  transaction mc = true ->
  transaction (userCommands (Multi mc)) = true ->
  let mc' := Exec (userCommands (Multi mc)) in
  let r := fst (multiCommand (c mc') (cmds mc')) in
  At r (len (elems r) - 1) = Some execReply ->
  Error execReply = None ->
  elems execReply = None ->
  exists r',
    snd (process multiCommand mc userCommands) = Returned r' /\
    Error r' = Error r /\
    elems r' = None.
Proof.
  intros Htx Hkeep mc' r Hat Herr Hel.
  rewrite (process_transaction mc userCommands Htx Hkeep).
  fold mc'. fold r. rewrite Hat. simpl snd.
  exists (unwrap r execReply). split; [reflexivity|].
  rewrite (unwrap_no_error r execReply Herr). simpl. auto.
Qed.

(** C2, amended: when the commit step's reply is an error reply,
    [process] returns that error as the top-level error of the result
    and leaves the element sequence of the aggregate in place: the raw
    replies of the pipeline, never empty, stay in the result. *)
Theorem process_commit_error mc userCommands execReply e :
  transaction mc = true ->
  transaction (userCommands (Multi mc)) = true ->
  let mc' := Exec (userCommands (Multi mc)) in
  let r := fst (multiCommand (c mc') (cmds mc')) in
  At r (len (elems r) - 1) = Some execReply ->
  Error execReply = Some e ->
  exists r',
    snd (process multiCommand mc userCommands) = Returned r' /\
    Error r' = Some e /\
    elems r' = elems r /\
    1 <= len (elems r').
Proof.
  intros Htx Hkeep mc' r Hat Herr.
  rewrite (process_transaction mc userCommands Htx Hkeep).
  fold mc'. fold r. rewrite Hat. simpl snd.
  exists (unwrap r execReply). split; [reflexivity|].
  rewrite (unwrap_error r execReply e Herr). simpl.
  repeat split.
  apply index_last_in_bounds. unfold At in Hat. congruence.
Qed.

(** C3, amended: [Flush] leaves the queue nil.  [process] does not
    clear the queue: afterwards it holds what was sent, which is the
    queue the callback left, followed by the commit marker in
    transactional mode. *)
Theorem queue_after_finalization mc userCommands :
  cmds (snd (Flush multiCommand mc)) = None /\
  let mc' := userCommands (if transaction mc then Multi mc else mc) in
  cmds (fst (process multiCommand mc userCommands)) =
    if transaction mc'
    then Some (slice_list (cmds mc') ++ [mkCommand "EXEC" []])
    else cmds mc'.
Proof.
  split.
  - unfold Flush. destruct (multiCommand (c mc) (cmds mc)). reflexivity.
  - intros mc'. destruct (transaction mc') eqn:Hm.
    + pose proof (process_transactional mc userCommands) as H.
      simpl in H. fold mc' in H. rewrite (H Hm). reflexivity.
    + pose proof (process_plain mc userCommands) as H.
      simpl in H. fold mc' in H. rewrite (H Hm). reflexivity.
Qed.

(** C4, amended: in a transactional batch whose callback queues the
    commands [ucmds], if the commit step's reply carries no error and
    holds a nested sequence, then the begin marker, the user commands and
    the commit marker are sent in that order, and [process] returns
    exactly the commit reply's nested sequence, position by position,
    with none of the replies to the markers.  When that sequence holds
    one reply per user command, the result holds as many replies as user
    commands. *)
Theorem process_commit_success mc userCommands ucmds execReply l :
  transaction mc = true ->
  transaction (userCommands (Multi mc)) = true ->
  slice_list (cmds (userCommands (Multi mc))) =
    slice_list (cmds (Multi mc)) ++ ucmds ->
  let mc' := Exec (userCommands (Multi mc)) in
  let r := fst (multiCommand (c mc') (cmds mc')) in
  At r (len (elems r) - 1) = Some execReply ->
  Error execReply = None ->
  elems execReply = Some l ->
  cmds mc' = Some (slice_list (cmds mc) ++
                   [mkCommand "MULTI" []] ++ ucmds ++ [mkCommand "EXEC" []]) /\
  exists r',
    snd (process multiCommand mc userCommands) = Returned r' /\
    elems r' = Some l /\
    (forall i, At r' i = At execReply i) /\
    Error r' = Error r /\
    (List.length l = List.length ucmds ->
     len (elems r') = Z.of_nat (List.length ucmds)).
Proof.
  intros Htx Hkeep Hq mc' r Hat Herr Hel.
  split.
  - subst mc'. rewrite cmds_Exec, Hq, cmds_Multi. simpl slice_list.
    now rewrite <- !app_assoc.
  - rewrite (process_transaction mc userCommands Htx Hkeep).
    fold mc'. fold r. rewrite Hat. simpl snd.
    exists (unwrap r execReply). split; [reflexivity|].
    rewrite (unwrap_no_error r execReply Herr).
    split; [exact Hel|]. split; [intros i; reflexivity|]. split; [reflexivity|].
    intros Hlen. simpl. rewrite Hel. unfold len. simpl. now rewrite Hlen.
Qed.

(** C9: in transactional mode [process] reads the commit step's reply
    at position [len(r.elems) - 1] of the aggregate.  When the aggregate
    holds at least one element the position is in bounds: the reply read
    is the last element, and [process] returns the aggregate unwrapped
    with it.  When the aggregate holds no element the position is -1,
    the access is out of range and [process] does not return.  So
    [process] returns exactly when the aggregate holds an element. *)
Theorem process_commit_index mc userCommands :
  transaction mc = true ->
  transaction (userCommands (Multi mc)) = true ->
  let mc' := Exec (userCommands (Multi mc)) in
  let r := fst (multiCommand (c mc') (cmds mc')) in
  (1 <= len (elems r) ->
   exists front execReply,
     slice_list (elems r) = front ++ [execReply] /\
     At r (len (elems r) - 1) = Some execReply /\
     snd (process multiCommand mc userCommands) = Returned (unwrap r execReply)) /\
  (len (elems r) = 0 ->
   len (elems r) - 1 = -1 /\
   At r (len (elems r) - 1) = None /\
   snd (process multiCommand mc userCommands) = Panicked) /\
  (snd (process multiCommand mc userCommands) <> Panicked <-> 1 <= len (elems r)).
Proof.
  intros Htx Hkeep mc' r.
  pose proof (process_transaction mc userCommands Htx Hkeep) as Hp.
  cbv zeta in Hp. fold mc' in Hp. fold r in Hp.
  assert (Hin : 1 <= len (elems r) ->
                exists front execReply,
                  slice_list (elems r) = front ++ [execReply] /\
                  At r (len (elems r) - 1) = Some execReply /\
                  snd (process multiCommand mc userCommands)
                    = Returned (unwrap r execReply)).
  { intros H1. apply index_last_in_bounds in H1.
    destruct (At r (len (elems r) - 1)) as [execReply|] eqn:Hat.
    - destruct (index_last_elem (elems r) execReply Hat) as [front Hf].
      exists front, execReply. rewrite Hp. auto.
    - unfold At in Hat. congruence. }
  assert (Hout : len (elems r) = 0 ->
                 len (elems r) - 1 = -1 /\
                 At r (len (elems r) - 1) = None /\
                 snd (process multiCommand mc userCommands) = Panicked).
  { intros H0. destruct (index_empty (elems r) H0) as [Hi Hn].
    split; [exact Hi|]. split; [exact Hn|].
    rewrite Hp. unfold At. rewrite Hn. reflexivity. }
  split; [exact Hin|]. split; [exact Hout|]. split.
  - intros Hnp. pose proof (len_nonneg (elems r)) as Hge.
    destruct (Z.eq_dec (len (elems r)) 0) as [H0|Hn0]; [|lia].
    destruct (Hout H0) as [_ [_ Hpan]]. contradiction.
  - intros H1. destruct (Hin H1) as [front [execReply [_ [_ Hret]]]].
    rewrite Hret. discriminate.
Qed.

End RedisSpec.

(** ** The command batch against the stub server *)

Section RedisExamples.

Import Redis RedisStub.

(** C1 at the failing input: the server answers the commit marker with
    the null reply, which is neither an error nor a sequence; the result
    carries no error at all. *)
Lemma process_malformed_commit_reply_witness :
  exists r',
    snd (process stubMultiCommand (newMultiCommand true (Up nilReply)) setThenGet)
      = Returned r' /\
    Error r' = None /\
    elems r' = None.
Proof.
  exact (process_malformed_commit_reply string string server stubMultiCommand
           (newMultiCommand true (Up nilReply)) setThenGet nilReply
           eq_refl eq_refl eq_refl eq_refl eq_refl).
Defined.

(** C2 refuted as stated: the server answers the commit marker with the
    error [EXECABORT]; the result carries that error and still holds
    the four raw replies of the pipeline. *)
Lemma process_commit_error_keeps_replies :
  Error (errorReply "EXECABORT") = Some (newError "EXECABORT") /\
  exists r',
    snd (process stubMultiCommand
           (newMultiCommand true (Up (errorReply "EXECABORT"))) setThenGet)
      = Returned r' /\
    Error r' = Some (newError "EXECABORT") /\
    elems r' = Some [status "OK"; status "QUEUED"; status "QUEUED";
                     errorReply "EXECABORT"] /\
    len (elems r') <> 0.
Proof.
  split; [reflexivity|].
  eexists. split; [reflexivity|].
  repeat split. discriminate.
Qed.

Lemma process_commit_error_witness :
  exists r',
    snd (process stubMultiCommand
           (newMultiCommand true (Up (errorReply "EXECABORT"))) setThenGet)
      = Returned r' /\
    Error r' = Some (newError "EXECABORT") /\
    elems r' = Some [status "OK"; status "QUEUED"; status "QUEUED";
                     errorReply "EXECABORT"] /\
    1 <= len (elems r').
Proof.
  exact (process_commit_error string string server stubMultiCommand
           (newMultiCommand true (Up (errorReply "EXECABORT"))) setThenGet
           (errorReply "EXECABORT") (newError "EXECABORT")
           eq_refl eq_refl eq_refl eq_refl).
Defined.

(** C3 refuted as stated: after [process] the queue still holds the
    commands, in either mode. *)
Lemma process_leaves_queue :
  cmds (fst (process stubMultiCommand
               (newMultiCommand false (Up (status "OK"))) setThenGet))
    = Some [SET; GET] /\
  cmds (fst (process stubMultiCommand
               (newMultiCommand true (Up (multi [status "OK"; status "v"])))
               setThenGet))
    = Some [MULTI; SET; GET; EXEC] /\
  len (cmds (fst (process stubMultiCommand
                    (newMultiCommand false (Up (status "OK"))) setThenGet))) <> 0.
Proof.
  repeat split. discriminate.
Qed.

(** C4 refuted as stated: the server answers the commit marker of a
    batch of two commands with a sequence of one reply; [process]
    returns that one reply. *)
Lemma process_commit_reply_count_mismatch :
  List.length [SET; GET] = 2%nat /\
  cmds (Exec (setThenGet (Multi (newMultiCommand true (Up (multi [status "OK"]))))))
    = Some [MULTI; SET; GET; EXEC] /\
  Error (multi [status "OK"]) = None /\
  exists r',
    snd (process stubMultiCommand
           (newMultiCommand true (Up (multi [status "OK"]))) setThenGet)
      = Returned r' /\
    Error r' = None /\
    elems r' = Some [status "OK"] /\
    len (elems r') <> 2.
Proof.
  split; [reflexivity|]. split; [reflexivity|]. split; [reflexivity|].
  eexists. split; [reflexivity|]. split; [reflexivity|]. split; [reflexivity|].
  discriminate.
Qed.

(** C4 at a concrete batch: [SET k v] and [GET k] in a transaction, the
    server answering the commit marker with [[OK, v]]. *)
Lemma process_commit_success_witness :
  cmds (Exec (setThenGet (Multi (newMultiCommand true
                                   (Up (multi [status "OK"; status "v"]))))))
    = Some [MULTI; SET; GET; EXEC] /\
  exists r',
    snd (process stubMultiCommand
           (newMultiCommand true (Up (multi [status "OK"; status "v"]))) setThenGet)
      = Returned r' /\
    elems r' = Some [status "OK"; status "v"] /\
    At r' 1 = Some (status "v") /\
    Error r' = None /\
    len (elems r') = 2.
Proof.
  destruct (process_commit_success string string server stubMultiCommand
              (newMultiCommand true (Up (multi [status "OK"; status "v"])))
              setThenGet [SET; GET] (multi [status "OK"; status "v"])
              [status "OK"; status "v"]
              eq_refl eq_refl eq_refl eq_refl eq_refl eq_refl)
    as [Hsent [r' [Hret [Hel [Hat [Herr Hlen]]]]]].
  split; [exact Hsent|]. exists r'.
  split; [exact Hret|]. split; [exact Hel|].
  split; [rewrite (Hat 1); reflexivity|]. split; [exact Herr | exact (Hlen eq_refl)].
Defined.

(** C9 at concrete batches: with the connection down the aggregate holds
    no element and [process] fails at the access; with the connection up
    the reply read is the last of the four. *)
Lemma process_commit_index_witness :
  (len (elems (fst (stubMultiCommand Down (Some [MULTI; SET; GET; EXEC])))) - 1 = -1 /\
   snd (process stubMultiCommand (newMultiCommand true Down) setThenGet) = Panicked) /\
  exists front execReply,
    [status "OK"; status "QUEUED"; status "QUEUED"; multi [status "OK"; status "v"]]
      = front ++ [execReply] /\
    snd (process stubMultiCommand
           (newMultiCommand true (Up (multi [status "OK"; status "v"]))) setThenGet)
      = Returned (unwrap (multi [status "OK"; status "QUEUED"; status "QUEUED";
                                 multi [status "OK"; status "v"]]) execReply).
Proof.
  split.
  - pose proof (process_commit_index string string server stubMultiCommand
                  (newMultiCommand true Down) setThenGet eq_refl eq_refl) as H.
    destruct H as [_ [H _]]. destruct (H eq_refl) as [Hi [_ Hp]].
    split; [exact Hi | exact Hp].
  - pose proof (process_commit_index string string server stubMultiCommand
                  (newMultiCommand true (Up (multi [status "OK"; status "v"])))
                  setThenGet eq_refl eq_refl) as H.
    destruct H as [H _].
    destruct (H ltac:(discriminate)) as [front [execReply [Hf [_ Hret]]]].
    exists front, execReply. split; [exact Hf | exact Hret].
Defined.

End RedisExamples.

(* ================================================================== *)
(** * The protocol connection *)
(* ================================================================== *)

Section RadixSpec.

Import Radix.

Variables time env : Type.
Context {E : Env time env}.

Implicit Types (w : world time env) (c : netConn) (cw : connWrap).

(** ** Promoted calls reach the raw stream *)

Lemma conn_Close_calls c w :
  calls (snd (conn_Close c w)) = calls w ++ [CallClose (rawId c)].
Proof.
  induction c as [id | inner IH t]; simpl.
  - unfold logged. destruct (streamClose id (ext w)). reflexivity.
  - apply IH.
Qed.

Lemma conn_SetDeadline_calls c (t : time) w :
  calls (snd (conn_SetDeadline c t w)) = calls w ++ [CallSetDeadline (rawId c) t].
Proof.
  induction c as [id | inner IH t']; simpl.
  - unfold logged. destruct (streamSetDeadline id t (ext w)). reflexivity.
  - apply IH.
Qed.

(** [Close] on a connection runs the raw stream's own [Close] on the
    environment. *)
Lemma conn_Close_ext c w :
  ext (snd (conn_Close c w)) = snd (streamClose (rawId c) (ext w)).
Proof.
  induction c as [id | inner IH t]; simpl.
  - unfold logged. destruct (streamClose id (ext w)). reflexivity.
  - apply IH.
Qed.

(** A wrapper is never the stream it wraps. *)
Lemma TimeoutConnPtr_neq c (t : Duration) : TimeoutConnPtr c t <> c.
Proof.
  revert t. induction c as [id | inner IH t']; intros t H.
  - discriminate.
  - injection H as H1 H2. exact (IH _ H1).
Qed.

(** ** [setDeadline] *)

Lemma setDeadline_positive (tc : timeoutConn) w :
  0 < tc_timeout tc ->
  setDeadline tc w =
    (tt, snd (conn_SetDeadline (tc_Conn tc) (Add (Now (ext w)) (tc_timeout tc)) w)).
Proof.
  intros H. unfold setDeadline.
  destruct (Z.gtb_spec (tc_timeout tc) 0) as [_|Hle]; [|lia].
  unfold bind, ret.
  destruct (conn_SetDeadline (tc_Conn tc) (Add (Now (ext w)) (tc_timeout tc)) w).
  reflexivity.
Qed.

Lemma setDeadline_disabled (tc : timeoutConn) w :
  tc_timeout tc <= 0 -> setDeadline tc w = (tt, w).
Proof.
  intros H. unfold setDeadline.
  destruct (Z.gtb_spec (tc_timeout tc) 0) as [Hgt|_]; [lia|]. reflexivity.
Qed.

(** Calls on a pointer to a [timeoutConn] are its methods. *)
Lemma conn_Read_ref (tc : timeoutConn) n w :
  conn_Read (ref tc) n w = tc_Read tc n w.
Proof. destruct tc. reflexivity. Qed.

Lemma conn_Write_ref (tc : timeoutConn) b w :
  conn_Write (ref tc) b w = tc_Write tc b w.
Proof. destruct tc. reflexivity. Qed.

(** ** [Encode] and [Decode] step by step *)

Lemma Encode_steps cw (m : Marshaler env) w :
  let res := encodeSteps cw m (ext w) in
  let w' := mkWorld (snd res) (calls w) in
  Encode cw m w =
    (fst res, if isNetError (fst res) then snd (conn_Close (Conn cw) w') else w').
Proof.
  unfold encodeSteps, Encode, closeOnNetError, Close, bind, lift, ret.
  destruct (MarshalRESP m (brw cw) (ext w)) as [[err|] e1]; cbn [fst snd ext calls].
  - destruct (isNetError (Some err)); [|reflexivity].
    destruct (conn_Close (Conn cw) (mkWorld e1 (calls w))). reflexivity.
  - destruct (bufFlush (Writer (brw cw)) e1) as [err e2]; cbn [fst snd ext calls].
    destruct (isNetError err); [|reflexivity].
    destruct (conn_Close (Conn cw) (mkWorld e2 (calls w))). reflexivity.
Qed.

Lemma Decode_steps cw (u : Unmarshaler env) w :
  let res := UnmarshalRESP u (Reader (brw cw)) (ext w) in
  let w' := mkWorld (snd res) (calls w) in
  Decode cw u w =
    (fst res, if isNetError (fst res) then snd (conn_Close (Conn cw) w') else w').
Proof.
  unfold Decode, Close, bind, lift, ret.
  destruct (UnmarshalRESP u (Reader (brw cw)) (ext w)) as [err e1]; cbn [fst snd ext calls].
  destruct (isNetError err); [|reflexivity].
  destruct (conn_Close (Conn cw) (mkWorld e1 (calls w))). reflexivity.
Qed.

(** C5, on the code as written: when [Encode] or [Decode] ends with a
    [net.Error], whether from the marshal, the flush or the unmarshal
    step, the call runs the stream's [Close] on what those steps left,
    before it returns.  The connection does not remember this: a [Do]
    that follows, of an action whose [Run] returns nil without using the
    connection, returns nil and does not fail. *)
Theorem net_error_closes cw (m : Marshaler env) (u : Unmarshaler env)
        (a : Action time env) w :
  (forall w', fst (Run a cw w') = None) ->
  (isNetError (fst (Encode cw m w)) = true ->
     ext (snd (Encode cw m w)) =
       snd (streamClose (rawId (Conn cw)) (snd (encodeSteps cw m (ext w)))) /\
     fst (Do cw a (snd (Encode cw m w))) = None) /\
  (isNetError (fst (Decode cw u w)) = true ->
     ext (snd (Decode cw u w)) =
       snd (streamClose (rawId (Conn cw))
              (snd (UnmarshalRESP u (Reader (brw cw)) (ext w)))) /\
     fst (Do cw a (snd (Decode cw u w))) = None).
Proof.
  intros Hnoop.
  pose proof (Encode_steps cw m w) as HE. pose proof (Decode_steps cw u w) as HD.
  cbv zeta in HE, HD. rewrite HE, HD. cbn [fst snd].
  split; intros Hnet; rewrite Hnet.
  - split; [now rewrite conn_Close_ext | apply Hnoop].
  - split; [now rewrite conn_Close_ext | apply Hnoop].
Qed.

(** C6: when [Encode] or [Decode] returns an error that is not a
    [net.Error], the call has made no call on the raw stream, [Close]
    included; it leaves the environment as the marshal, flush or
    unmarshal step left it, and the error returned is the one that step
    produced. *)
Theorem other_error_keeps_open cw (m : Marshaler env) (u : Unmarshaler env) w err :
  (fst (Encode cw m w) = Some err -> isNetError (Some err) = false ->
     fst (encodeSteps cw m (ext w)) = Some err /\
     snd (Encode cw m w) = mkWorld (snd (encodeSteps cw m (ext w))) (calls w) /\
     ~ In (CallClose (rawId (Conn cw))) (skipn (List.length (calls w))
                                           (calls (snd (Encode cw m w))))) /\
  (fst (Decode cw u w) = Some err -> isNetError (Some err) = false ->
     fst (UnmarshalRESP u (Reader (brw cw)) (ext w)) = Some err /\
     snd (Decode cw u w) =
       mkWorld (snd (UnmarshalRESP u (Reader (brw cw)) (ext w))) (calls w) /\
     ~ In (CallClose (rawId (Conn cw))) (skipn (List.length (calls w))
                                           (calls (snd (Decode cw u w))))).
Proof.
  pose proof (Encode_steps cw m w) as HE. pose proof (Decode_steps cw u w) as HD.
  cbv zeta in HE, HD. rewrite HE, HD. cbn [fst snd].
  split; intros Hret Hnet; rewrite Hret, Hnet; cbn [calls];
    rewrite skipn_all; (repeat split; auto).
Qed.

(** C7: [Read] and [Write] of a deadline-enforcing stream first set the
    deadline [now + timeout] on the wrapped stream when the timeout is
    positive, and go straight to the wrapped stream's [Read] or [Write]
    when it is zero or negative.  On a wrapped raw stream the calls made
    are the deadline (if any) followed by the operation. *)
Theorem timeoutConn_deadline (tc : timeoutConn) n b w :
  (0 < tc_timeout tc ->
     let deadline := Add (Now (ext w)) (tc_timeout tc) in
     let w1 := snd (conn_SetDeadline (tc_Conn tc) deadline w) in
     calls w1 = calls w ++ [CallSetDeadline (rawId (tc_Conn tc)) deadline] /\
     tc_Read tc n w = conn_Read (tc_Conn tc) n w1 /\
     tc_Write tc b w = conn_Write (tc_Conn tc) b w1) /\
  (tc_timeout tc <= 0 ->
     tc_Read tc n w = conn_Read (tc_Conn tc) n w /\
     tc_Write tc b w = conn_Write (tc_Conn tc) b w) /\
  (forall id, tc_Conn tc = Stream id ->
     let deadline := Add (Now (ext w)) (tc_timeout tc) in
     let set := if tc_timeout tc >? 0 then [CallSetDeadline id deadline] else [] in
     calls (snd (tc_Read tc n w)) = calls w ++ set ++ [CallRead id n] /\
     calls (snd (tc_Write tc b w)) = calls w ++ set ++ [CallWrite id b]).
Proof.
  split; [|split].
  - intros Hpos deadline w1. split; [apply conn_SetDeadline_calls|].
    unfold tc_Read, tc_Write, bind. rewrite (setDeadline_positive tc w Hpos).
    fold deadline. fold w1. split; reflexivity.
  - intros Hle. unfold tc_Read, tc_Write, bind.
    rewrite (setDeadline_disabled tc w Hle). split; reflexivity.
  - intros id Hid deadline set. unfold tc_Read, tc_Write, bind.
    destruct (Z.gtb_spec (tc_timeout tc) 0) as [Hgt|Hle].
    + rewrite (setDeadline_positive tc w ltac:(lia)). fold deadline.
      rewrite Hid. simpl. unfold logged.
      destruct (streamSetDeadline id deadline (ext w)) as [o e1]. simpl.
      destruct (streamRead id n e1), (streamWrite id b e1). simpl.
      subst set. rewrite <- !app_assoc. split; reflexivity.
    + rewrite (setDeadline_disabled tc w Hle). rewrite Hid. simpl. unfold logged.
      destruct (streamRead id n (ext w)), (streamWrite id b (ext w)). simpl.
      split; reflexivity.
Qed.

(** C8: [Do] returns what [action.Run] returns on the same connection
    and leaves the world exactly as [Run] left it. *)
Theorem Do_delegates cw (a : Action time env) w :
  Do cw a w = Run a cw w.
Proof. reflexivity. Qed.

(** C10: [NetConn] gives back the stream [NewConn] was given.  For a
    connection from [DialTimeout] that stream is the pointer to the
    [timeoutConn] built around the dialled stream with the given
    timeout, which is not the dialled stream itself. *)
Theorem NetConn_NewConn c network addr (timeout : Duration) w cw :
  NetConn (NewConn c) = c /\
  (fst (fst (DialTimeout network addr timeout w)) = Some cw ->
   exists raw,
     fst (netDialTimeout network addr timeout (ext w)) = inl raw /\
     NetConn cw = ref (mkTimeoutConn raw timeout) /\
     NetConn cw <> raw).
Proof.
  split; [reflexivity|].
  unfold DialTimeout, bind, lift, ret.
  destruct (netDialTimeout network addr timeout (ext w)) as [[raw|err] e1];
    simpl; intros H; [|discriminate].
  injection H as <-. exists raw. repeat split.
  apply TimeoutConnPtr_neq.
Qed.

End RadixSpec.

(** ** The connection against the stub environment *)

Section RadixExamples.

Import Radix RadixStub.

(** C5 at the failing input: the marshaller, or the unmarshaller, meets
    a timeout on stream 7.  Afterwards the stream is closed, a write on
    it fails, and yet [Do] of an action that does not use the connection
    returns nil. *)
Lemma net_error_closes_witness :
  let w1 := snd (Encode cw0 timeoutMarshaler w0) in
  let w2 := snd (Decode cw0 timeoutUnmarshaler w0) in
  (ext w1 = mkStubEnv 1000 [7%nat] /\ fst (Do cw0 noopAction w1) = None) /\
  (ext w2 = mkStubEnv 1000 [7%nat] /\ fst (Do cw0 noopAction w2) = None) /\
  isClosed 7 (ext w1) = true /\
  fst (streamWrite 7%nat [] (ext w1)) = (0%nat, Some errClosed).
Proof.
  intros w1 w2.
  destruct (net_error_closes Z stubEnv cw0 timeoutMarshaler timeoutUnmarshaler
              noopAction w0 (fun _ => eq_refl)) as [HE HD].
  exact (conj (HE eq_refl) (conj (HD eq_refl) (conj eq_refl eq_refl))).
Defined.

(** C6 at a concrete connection: the marshaller and the unmarshaller
    reject their values. *)
Lemma other_error_keeps_open_witness :
  snd (Encode cw0 badValueMarshaler w0) = w0 /\
  fst (Encode cw0 badValueMarshaler w0) = Some (OtherError "cannot marshal") /\
  snd (Decode cw0 badValueUnmarshaler w0) = w0 /\
  fst (Decode cw0 badValueUnmarshaler w0) = Some (OtherError "unexpected type").
Proof.
  destruct (other_error_keeps_open Z stubEnv cw0 badValueMarshaler badValueUnmarshaler
              w0 (OtherError "cannot marshal")) as [HE _].
  destruct (other_error_keeps_open Z stubEnv cw0 badValueMarshaler badValueUnmarshaler
              w0 (OtherError "unexpected type")) as [_ HD].
  destruct (HE eq_refl eq_refl) as [HE1 [HE2 _]].
  destruct (HD eq_refl eq_refl) as [HD1 [HD2 _]].
  exact (conj HE2 (conj eq_refl (conj HD2 eq_refl))).
Defined.

(** C7 at concrete streams: a timeout of 5 at time 1000 sets the
    deadline 1005 before the operation; a timeout of 0 or -1 sets
    none. *)
Lemma timeoutConn_deadline_witness :
  calls (snd (tc_Read (mkTimeoutConn (Stream 7) 5) 16 w0))
    = [CallSetDeadline 7%nat 1005; CallRead 7%nat 16%nat] /\
  calls (snd (tc_Write (mkTimeoutConn (Stream 7) 5) [] w0))
    = [CallSetDeadline 7%nat 1005; CallWrite 7%nat []] /\
  tc_Read (mkTimeoutConn (Stream 7) 0) 16 w0 = conn_Read (Stream 7) 16 w0 /\
  tc_Write (mkTimeoutConn (Stream 7) (-1)) [] w0 = conn_Write (Stream 7) [] w0.
Proof.
  destruct (timeoutConn_deadline Z stubEnv (mkTimeoutConn (Stream 7) 5) 16 [] w0)
    as [Hpos [_ Hraw]].
  destruct (timeoutConn_deadline Z stubEnv (mkTimeoutConn (Stream 7) 0) 16 [] w0)
    as [_ [H0 _]].
  destruct (timeoutConn_deadline Z stubEnv (mkTimeoutConn (Stream 7) (-1)) 16 [] w0)
    as [_ [Hneg _]].
  destruct (Hpos eq_refl) as [_ _].
  destruct (Hraw 7%nat eq_refl) as [Hr Hw].
  destruct (H0 ltac:(discriminate)) as [H0r _].
  destruct (Hneg ltac:(discriminate)) as [_ Hnw].
  exact (conj Hr (conj Hw (conj H0r Hnw))).
Defined.

(** C10 at a concrete dial: the connection's stream is the wrapper
    around stream 7, not stream 7. *)
Lemma NetConn_NewConn_witness :
  NetConn (NewConn (Stream 7)) = Stream 7 /\
  exists raw,
    fst (netDialTimeout "tcp" "localhost:6379" 5 (ext w0)) = inl raw /\
    NetConn (NewConn (ref (mkTimeoutConn (Stream 7) 5))) = ref (mkTimeoutConn raw 5) /\
    NetConn (NewConn (ref (mkTimeoutConn (Stream 7) 5))) <> raw.
Proof.
  destruct (NetConn_NewConn Z stubEnv (Stream 7) "tcp" "localhost:6379" 5 w0
              (NewConn (ref (mkTimeoutConn (Stream 7) 5)))) as [H1 H2].
  split; [exact H1 | exact (H2 eq_refl)].
Defined.

End RadixExamples.

(* ================================================================== *)
(** * More on the command batch: how the operations compose *)
(* ================================================================== *)

Section RedisCompose.

Import Redis.

Variables iface scalar connection : Type.
Variable multiCommand :
  connection -> slice (command iface) -> Reply scalar * connection.

Implicit Types (mc : MultiCommand iface connection) (r : Reply scalar)
         (cs : list (command iface)).

Lemma Command_record mc (cmd : command iface) :
  Command mc (name cmd) (args cmd) = set_cmds mc (append (cmds mc) cmd).
Proof. destruct cmd. reflexivity. Qed.

Lemma queueAll_cons mc cmd cs :
  queueAll (cmd :: cs) mc = queueAll cs (Command mc (name cmd) (args cmd)).
Proof. reflexivity. Qed.

Lemma queueAll_cmds cs : forall mc,
  cmds (queueAll cs mc) =
    match cs with
    | [] => cmds mc
    | _ => Some (slice_list (cmds mc) ++ cs)
    end.
Proof.
  induction cs as [|cmd cs IH]; intros mc; [reflexivity|].
  rewrite queueAll_cons, IH, Command_record. simpl.
  destruct cs; simpl; [reflexivity|]. now rewrite <- app_assoc.
Qed.

Lemma queueAll_fields cs : forall mc,
  transaction (queueAll cs mc) = transaction mc /\ c (queueAll cs mc) = c mc.
Proof.
  induction cs as [|cmd cs IH]; intros mc; [split; reflexivity|].
  rewrite queueAll_cons. destruct (IH (Command mc (name cmd) (args cmd))) as [H1 H2].
  rewrite H1, H2. split; reflexivity.
Qed.

(** X1: successive [Command] calls queue the commands in the order of
    the calls, behind what the batch already held; they change neither
    the mode nor the connection, and each call lengthens the queue by
    one. *)
Theorem queueAll_appends mc cs :
  slice_list (cmds (queueAll cs mc)) = slice_list (cmds mc) ++ cs /\
  len (cmds (queueAll cs mc)) = len (cmds mc) + Z.of_nat (List.length cs) /\
  transaction (queueAll cs mc) = transaction mc /\
  c (queueAll cs mc) = c mc.
Proof.
  assert (H : slice_list (cmds (queueAll cs mc)) = slice_list (cmds mc) ++ cs).
  { rewrite queueAll_cmds. destruct cs; simpl; [now rewrite app_nil_r | reflexivity]. }
  split; [exact H|]. split.
  - unfold len. rewrite H, length_app. lia.
  - apply queueAll_fields.
Qed.

(** X2: after a [Flush] nothing of the flushed queue is sent again: a
    second [Flush], after the commands [cs] were queued, sends exactly
    [cs] (a nil queue when there are none) over the connection as the
    first flush left it. *)
Theorem Flush_then_Flush mc cs :
  let c1 := snd (multiCommand (c mc) (cmds mc)) in
  let mc2 := queueAll cs (snd (Flush multiCommand mc)) in
  cmds mc2 = queued cs /\
  fst (Flush multiCommand mc2) = fst (multiCommand c1 (queued cs)) /\
  c (snd (Flush multiCommand mc2)) = snd (multiCommand c1 (queued cs)) /\
  cmds (snd (Flush multiCommand mc2)) = None.
Proof.
  intros c1 mc2.
  assert (Hq : cmds mc2 = queued cs).
  { subst mc2. rewrite queueAll_cmds. unfold Flush.
    destruct (multiCommand (c mc) (cmds mc)). destruct cs; reflexivity. }
  assert (Hc : c mc2 = c1).
  { subst mc2 c1. rewrite (proj2 (queueAll_fields cs _)). unfold Flush.
    destruct (multiCommand (c mc) (cmds mc)). reflexivity. }
  split; [exact Hq|].
  assert (HF : Flush multiCommand mc2 =
               (fst (multiCommand c1 (queued cs)),
                set_cmds (set_c mc2 (snd (multiCommand c1 (queued cs)))) None)).
  { unfold Flush. rewrite Hq, Hc. destruct (multiCommand c1 (queued cs)). reflexivity. }
  rewrite HF. repeat split.
Qed.

(** X3: in non-transactional mode [process] with a callback that only
    queues commands sends the batch's queue followed by those commands,
    with no marker, in one pipeline, and always returns: the result is
    the aggregate reply as [multiCommand] gave it, whatever it holds. *)
Theorem process_plain_returns_aggregate mc cs :
  transaction mc = false ->
  let q := cmds (queueAll cs mc) in
  slice_list q = slice_list (cmds mc) ++ cs /\
  process multiCommand mc (queueAll cs) =
    (set_c (queueAll cs mc) (snd (multiCommand (c mc) q)),
     Returned (fst (multiCommand (c mc) q))).
Proof.
  intros Hp q. split; [apply queueAll_appends|].
  pose proof (process_plain iface scalar connection multiCommand mc (queueAll cs)) as H.
  cbv zeta in H. rewrite Hp in H.
  destruct (queueAll_fields cs mc) as [Ht Hc].
  rewrite Hc in H. apply H. now rewrite Ht.
Qed.

(** X4: in transactional mode [process] with a callback that only queues
    commands makes one pipeline of the batch's queue, the begin marker,
    the callback's commands in order and the commit marker: two commands
    more than were queued. *)
Theorem process_transaction_pipeline mc cs :
  transaction mc = true ->
  let sent := Some (slice_list (cmds mc) ++
                    [mkCommand "MULTI" []] ++ cs ++ [mkCommand "EXEC" []]) in
  cmds (fst (process multiCommand mc (queueAll cs))) = sent /\
  c (fst (process multiCommand mc (queueAll cs))) = snd (multiCommand (c mc) sent) /\
  len sent = len (cmds mc) + Z.of_nat (List.length cs) + 2.
Proof.
  intros Htx sent.
  destruct (queueAll_fields cs (Multi mc)) as [Ht Hc].
  assert (Hkeep : transaction (queueAll cs (Multi mc)) = true) by now rewrite Ht.
  assert (Hsent : cmds (Exec (queueAll cs (Multi mc))) = sent).
  { rewrite cmds_Exec. rewrite (proj1 (queueAll_appends (Multi mc) cs)).
    rewrite cmds_Multi. simpl slice_list. subst sent. now rewrite <- !app_assoc. }
  rewrite (process_transaction iface scalar connection multiCommand mc (queueAll cs)
             Htx Hkeep).
  cbn [fst]. unfold set_c at 1 2. cbn [cmds c].
  rewrite Hsent. change (c (Exec (queueAll cs (Multi mc)))) with (c (queueAll cs (Multi mc))).
  rewrite Hc. split; [reflexivity|]. split; [reflexivity|].
  subst sent. unfold len. simpl slice_list. rewrite !length_app. simpl List.length.
  rewrite length_app. simpl List.length. lia.
Qed.

(** X5: a [Flush] inside the callback of a transactional batch splits
    the bracket.  The begin marker leaves in the callback's pipeline; the
    pipeline that [process] sends, and whose last reply it unwraps, holds
    the commands queued after the [Flush] and the commit marker, and no
    begin marker. *)
Theorem Flush_inside_transaction mc cs :
  transaction mc = true ->
  let first := Some (slice_list (cmds mc) ++ [mkCommand "MULTI" []]) in
  let c1 := snd (multiCommand (c mc) first) in
  let second := Some (cs ++ [mkCommand "EXEC" []]) in
  c (flushThenQueue multiCommand cs (Multi mc)) = c1 /\
  cmds (fst (process multiCommand mc (flushThenQueue multiCommand cs))) = second /\
  c (fst (process multiCommand mc (flushThenQueue multiCommand cs)))
    = snd (multiCommand c1 second).
Proof.
  intros Htx first c1 second.
  set (uc := flushThenQueue multiCommand cs).
  assert (HF : snd (Flush multiCommand (Multi mc)) =
               mkMultiCommand true c1 None).
  { unfold Flush. change (cmds (Multi mc)) with first.
    change (c (Multi mc)) with (c mc). fold c1.
    destruct (multiCommand (c mc) first) as [r0 c0] eqn:Hm.
    unfold set_cmds, set_c. cbn [transaction c cmds].
    change (transaction (Multi mc)) with (transaction mc). rewrite Htx.
    subst c1. reflexivity. }
  assert (Hu : uc (Multi mc) = queueAll cs (mkMultiCommand true c1 None)).
  { subst uc. unfold flushThenQueue. now rewrite HF. }
  destruct (queueAll_fields cs (mkMultiCommand true c1 None)) as [Ht Hc].
  assert (Hkeep : transaction (uc (Multi mc)) = true) by now rewrite Hu, Ht.
  assert (Hsent : cmds (Exec (uc (Multi mc))) = second).
  { rewrite cmds_Exec, Hu. rewrite (proj1 (queueAll_appends _ cs)). reflexivity. }
  split; [now rewrite Hu, Hc|].
  rewrite (process_transaction iface scalar connection multiCommand mc uc Htx Hkeep).
  cbn [fst]. unfold set_c at 1 2. cbn [cmds c].
  rewrite Hsent. change (c (Exec (uc (Multi mc)))) with (c (uc (Multi mc))).
  rewrite Hu, Hc. split; reflexivity.
Qed.

(** X6: whenever [process] returns, the top-level error of its result is
    the one the aggregate reply already carried, or, in transactional
    mode, the error of the commit step's reply.  [process] never puts an
    error of its own making there. *)
Theorem process_error_origin mc userCommands r' :
  snd (process multiCommand mc userCommands) = Returned r' ->
  let mc' := userCommands (if transaction mc then Multi mc else mc) in
  let sent := if transaction mc' then Exec mc' else mc' in
  let r := fst (multiCommand (c sent) (cmds sent)) in
  Error r' = Error r \/
  (transaction mc' = true /\
   exists execReply e,
     At r (len (elems r) - 1) = Some execReply /\
     Error execReply = Some e /\
     Error r' = Some e).
Proof.
  intros Hret mc' sent r. subst r sent.
  destruct (transaction mc') eqn:Hm.
  - pose proof (process_transactional iface scalar connection multiCommand
                  mc userCommands) as H.
    cbv zeta in H. fold mc' in H. rewrite (H Hm) in Hret. cbn [snd] in Hret.
    set (r := fst (multiCommand (c (Exec mc')) (cmds (Exec mc')))) in *.
    destruct (At r (len (elems r) - 1)) as [execReply|] eqn:Hat; [|discriminate].
    injection Hret as <-.
    destruct (Error execReply) as [e|] eqn:He.
    + right. split; [reflexivity|]. exists execReply, e.
      rewrite (unwrap_error scalar r execReply e He). auto.
    + left. now rewrite (unwrap_no_error scalar r execReply He).
  - pose proof (process_plain iface scalar connection multiCommand
                  mc userCommands) as H.
    cbv zeta in H. fold mc' in H. rewrite (H Hm) in Hret. cbn [snd] in Hret.
    injection Hret as <-. left. reflexivity.
Qed.

End RedisCompose.

(** ** The composed batch operations against the stub server *)

Section RedisComposeExamples.

Import Redis RedisStub.

(** X3 at a concrete batch: a plain batch of [SET k v] and [GET k]. *)
Lemma process_plain_returns_aggregate_witness :
  process stubMultiCommand (newMultiCommand false (Up nilReply)) (queueAll [SET; GET])
    = (mkMultiCommand false (Up nilReply) (Some [SET; GET]),
       Returned (multi [status "QUEUED"; status "QUEUED"])).
Proof.
  exact (proj2 (process_plain_returns_aggregate string string server stubMultiCommand
                  (newMultiCommand false (Up nilReply)) [SET; GET] eq_refl)).
Defined.

(** X4 at a concrete batch: the same two commands in a transaction. *)
Lemma process_transaction_pipeline_witness :
  cmds (fst (process stubMultiCommand (newMultiCommand true (Up nilReply))
               (queueAll [SET; GET])))
    = Some [MULTI; SET; GET; EXEC].
Proof.
  exact (proj1 (process_transaction_pipeline string string server stubMultiCommand
                  (newMultiCommand true (Up nilReply)) [SET; GET] eq_refl)).
Defined.

(** X5 at a concrete batch: the callback flushes, then queues [GET k]. *)
Lemma Flush_inside_transaction_witness :
  cmds (fst (process stubMultiCommand (newMultiCommand true (Up nilReply))
               (flushThenQueue stubMultiCommand [GET])))
    = Some [GET; EXEC].
Proof.
  exact (proj1 (proj2 (Flush_inside_transaction string string server stubMultiCommand
                         (newMultiCommand true (Up nilReply)) [GET] eq_refl))).
Defined.

(** X6 at a concrete batch: the commit step fails with [EXECABORT], and
    that is the error of the result. *)
Lemma process_error_origin_witness :
  Some (newError "EXECABORT") = None \/
  (true = true /\
   exists execReply e,
     At (multi [status "OK"; status "QUEUED"; status "QUEUED"; errorReply "EXECABORT"])
        3 = Some execReply /\
     Error execReply = Some e /\
     Some (newError "EXECABORT") = Some e).
Proof.
  exact (process_error_origin string string server stubMultiCommand
           (newMultiCommand true (Up (errorReply "EXECABORT"))) setThenGet
           (set_Error (multi [status "OK"; status "QUEUED"; status "QUEUED";
                              errorReply "EXECABORT"])
                      (Some (newError "EXECABORT")))
           eq_refl).
Defined.

End RedisComposeExamples.

(* ================================================================== *)
(** * More on the connection: dialling, wrappers and buffers *)
(* ================================================================== *)

Section RadixCompose.

Import Radix.

Variables time env : Type.
Context {E : Env time env}.

Implicit Types (w : world time env) (c : netConn) (cw : connWrap).

Lemma conn_Close_raw c w : conn_Close c w = conn_Close (Stream (rawId c)) w.
Proof. induction c as [id | inner IH t]; [reflexivity | exact IH]. Qed.

Lemma conn_SetDeadline_raw c (t : time) w :
  conn_SetDeadline c t w = conn_SetDeadline (Stream (rawId c)) t w.
Proof. induction c as [id | inner IH t']; [reflexivity | exact IH]. Qed.

(** X7: [Dial] and [DialTimeout] return a connection and a nil error, or
    no connection and the error of the dialler as it is, never both and
    never neither; and dialling makes no call on any stream: no deadline
    is set before the first read or write. *)
Theorem Dial_result network addr (timeout : Duration) w :
  ((exists raw, fst (netDial network addr (ext w)) = inl raw /\
                fst (Dial network addr w) = (Some (NewConn raw), None)) \/
   (exists err, fst (netDial network addr (ext w)) = inr err /\
                fst (Dial network addr w) = (None, Some err))) /\
  ((exists raw, fst (netDialTimeout network addr timeout (ext w)) = inl raw /\
                fst (DialTimeout network addr timeout w)
                  = (Some (NewConn (ref (mkTimeoutConn raw timeout))), None)) \/
   (exists err, fst (netDialTimeout network addr timeout (ext w)) = inr err /\
                fst (DialTimeout network addr timeout w) = (None, Some err))) /\
  calls (snd (Dial network addr w)) = calls w /\
  calls (snd (DialTimeout network addr timeout w)) = calls w.
Proof.
  unfold Dial, DialTimeout, bind, lift, ret.
  destruct (netDial network addr (ext w)) as [[raw|err] e1];
    destruct (netDialTimeout network addr timeout (ext w)) as [[raw'|err'] e2];
    cbn [fst snd calls];
    (split; [| split; [| split; reflexivity]]); eauto.
Qed.

(** X8: [Encode] returns nil exactly when both the marshal step and the
    flush step do, and [Decode] exactly when the unmarshal step does.
    Either call runs the stream's [Close] exactly when the error it
    returns is a [net.Error]; otherwise, success included, it leaves the
    environment as its steps left it. *)
Theorem Encode_outcome cw (m : Marshaler env) (u : Unmarshaler env) w :
  (fst (Encode cw m w) = None <->
     fst (MarshalRESP m (brw cw) (ext w)) = None /\
     fst (bufFlush (Writer (brw cw)) (snd (MarshalRESP m (brw cw) (ext w)))) = None) /\
  (fst (Decode cw u w) = None <->
     fst (UnmarshalRESP u (Reader (brw cw)) (ext w)) = None) /\
  ext (snd (Encode cw m w)) =
    (if isNetError (fst (Encode cw m w))
     then snd (streamClose (rawId (Conn cw)) (snd (encodeSteps cw m (ext w))))
     else snd (encodeSteps cw m (ext w))) /\
  ext (snd (Decode cw u w)) =
    (if isNetError (fst (Decode cw u w))
     then snd (streamClose (rawId (Conn cw))
                 (snd (UnmarshalRESP u (Reader (brw cw)) (ext w))))
     else snd (UnmarshalRESP u (Reader (brw cw)) (ext w))).
Proof.
  pose proof (Encode_steps time env cw m w) as HE.
  pose proof (Decode_steps time env cw u w) as HD.
  cbv zeta in HE, HD. rewrite HE, HD. cbn [fst snd]. clear HE HD.
  split; [|split; [|split]].
  - unfold encodeSteps.
    destruct (MarshalRESP m (brw cw) (ext w)) as [[err|] e1]; cbn [fst snd].
    + split; [discriminate | intros [H _]; discriminate].
    + split; [intros H; split; [reflexivity | exact H] | intros [_ H]; exact H].
  - reflexivity.
  - destruct (isNetError (fst (encodeSteps cw m (ext w)))).
    + now rewrite conn_Close_ext.
    + reflexivity.
  - destruct (isNetError (fst (UnmarshalRESP u (Reader (brw cw)) (ext w)))).
    + now rewrite conn_Close_ext.
    + reflexivity.
Qed.

(** X9: when the marshal step fails, [Encode] returns its error without
    running the flush step: the environment is left as the marshal step
    left it, after the stream's own [Close] when the error is a
    [net.Error]. *)
Theorem Encode_marshal_failure cw (m : Marshaler env) w err :
  fst (MarshalRESP m (brw cw) (ext w)) = Some err ->
  let e1 := snd (MarshalRESP m (brw cw) (ext w)) in
  fst (Encode cw m w) = Some err /\
  ext (snd (Encode cw m w)) =
    (if isNetError (Some err)
     then snd (streamClose (rawId (Conn cw)) e1)
     else e1).
Proof.
  intros Hm e1. pose proof (Encode_steps time env cw m w) as HE.
  cbv zeta in HE. rewrite HE. clear HE. cbn [fst snd].
  unfold encodeSteps. subst e1.
  destruct (MarshalRESP m (brw cw) (ext w)) as [o e1]. cbn [fst snd] in *.
  subst o. cbn [fst snd]. split; [reflexivity|].
  destruct (isNetError (Some err)); [|reflexivity].
  rewrite conn_Close_raw. simpl. unfold logged. cbn [ext].
  destruct (streamClose (rawId (Conn cw)) e1). reflexivity.
Qed.

(** X10: [Close] and [SetDeadline] on a connection act on the raw stream
    beneath all the deadline-enforcing wrappers exactly as a direct call
    would: no wrapper refreshes a deadline on the way, and nothing keeps
    a second [Close] from reaching the stream. *)
Theorem Close_reaches_raw_stream c (t : time) w :
  Close (NewConn c) w = logged (CallClose (rawId c)) (streamClose (rawId c)) w /\
  conn_SetDeadline c t w
    = logged (CallSetDeadline (rawId c) t) (streamSetDeadline (rawId c) t) w /\
  calls (snd (Close (NewConn c) (snd (Close (NewConn c) w))))
    = calls w ++ [CallClose (rawId c); CallClose (rawId c)].
Proof.
  unfold Close, NewConn. cbn [Conn].
  split; [|split].
  - now rewrite conn_Close_raw.
  - now rewrite conn_SetDeadline_raw.
  - rewrite !conn_Close_calls, <- app_assoc. reflexivity.
Qed.

(** X11: the buffered reader and writer of a connection from
    [DialTimeout] sit on the deadline-enforcing wrapper, so every read
    and write they issue is the wrapper's [Read] or [Write]; those of a
    connection from [Dial] sit on the dialled stream itself. *)
Theorem dialled_buffers network addr (timeout : Duration) w cw :
  (fst (fst (DialTimeout network addr timeout w)) = Some cw ->
   exists raw,
     fst (netDialTimeout network addr timeout (ext w)) = inl raw /\
     rd (Reader (brw cw)) = NetConn cw /\
     wr (Writer (brw cw)) = NetConn cw /\
     forall n b w',
       conn_Read (rd (Reader (brw cw))) n w' = tc_Read (mkTimeoutConn raw timeout) n w' /\
       conn_Write (wr (Writer (brw cw))) b w' = tc_Write (mkTimeoutConn raw timeout) b w') /\
  (fst (fst (Dial network addr w)) = Some cw ->
   fst (netDial network addr (ext w)) = inl (NetConn cw) /\
   rd (Reader (brw cw)) = NetConn cw /\
   wr (Writer (brw cw)) = NetConn cw).
Proof.
  unfold Dial, DialTimeout, bind, lift, ret. split.
  - destruct (netDialTimeout network addr timeout (ext w)) as [[raw|err] e1];
      cbn [fst snd]; intros H; [|discriminate].
    injection H as <-. exists raw. cbn.
    repeat split.
  - destruct (netDial network addr (ext w)) as [[raw|err] e1];
      cbn [fst snd]; intros H; [|discriminate].
    injection H as <-. repeat split.
Qed.

End RadixCompose.

(** ** Dialling and marshalling against the stub environment *)

Section RadixComposeExamples.

Import Radix RadixStub.

(** X9 at a concrete connection: the marshaller times out; the stream
    is closed and nothing was flushed. *)
Lemma Encode_marshal_failure_witness :
  fst (Encode cw0 timeoutMarshaler w0) = Some (NetError "i/o timeout") /\
  ext (snd (Encode cw0 timeoutMarshaler w0)) = mkStubEnv 1000 [7%nat].
Proof.
  exact (Encode_marshal_failure Z stubEnv cw0 timeoutMarshaler w0
           (NetError "i/o timeout") eq_refl).
Defined.

(** X11 at concrete dials: with a timeout of 5 the reader sits on the
    wrapper around stream 7; without a timeout it sits on stream 7. *)
Lemma dialled_buffers_witness :
  (exists raw,
     fst (netDialTimeout "tcp" "localhost:6379" 5 (ext w0)) = inl raw /\
     rd (Reader (brw (NewConn (ref (mkTimeoutConn (Stream 7) 5)))))
       = TimeoutConnPtr (Stream 7) 5 /\
     wr (Writer (brw (NewConn (ref (mkTimeoutConn (Stream 7) 5)))))
       = TimeoutConnPtr (Stream 7) 5 /\
     forall n b w',
       conn_Read (TimeoutConnPtr (Stream 7) 5) n w'
         = tc_Read (mkTimeoutConn raw 5) n w' /\
       conn_Write (TimeoutConnPtr (Stream 7) 5) b w'
         = tc_Write (mkTimeoutConn raw 5) b w') /\
  rd (Reader (brw (NewConn (Stream 7)))) = Stream 7.
Proof.
  split.
  - exact (proj1 (dialled_buffers Z stubEnv "tcp" "localhost:6379" 5 w0
                    (NewConn (ref (mkTimeoutConn (Stream 7) 5)))) eq_refl).
  - exact (proj1 (proj2 (proj2 (dialled_buffers Z stubEnv "tcp" "localhost:6379" 5 w0
                                  (NewConn (Stream 7))) eq_refl))).
Defined.

End RadixComposeExamples.
